(** * User-input components of [src/app/click-me.component.ts]

    A shallow embedding of the component classes of the user-input page
    ([ClickMeComponent], [KeyUpComponent_v1] .. [KeyUpComponent_v4],
    [LittleTourComponent]) together with the event bindings of their
    templates, followed by the properties of the handlers.

    Every component instance owns one field.  A method that assigns to
    [this.f] is a function from the instance before the call to the
    instance after it. *)

From Stdlib Require Import String Ascii List Arith NArith Bool Lia.
Import ListNotations.
Open Scope string_scope.

(** ** JavaScript primitives the handlers rely on *)

Module Js.

(** [ToBoolean] on a value of type [string], as in [if (newHero)]:
    the empty string is the only falsy string. *)
Definition truthy (s : string) : bool :=
  match s with
  | EmptyString => false
  | String _ _ => true
  end.

(** [arr.push(x)]: the array afterwards. *)
Definition push {A : Type} (arr : list A) (x : A) : list A :=
  (arr ++ [x])%list.

(** White space and line terminators recognised by
    [String.prototype.trim], among the code units below 256:
    TAB, LF, VT, FF, CR, SP and NBSP.  No handler of this file calls
    [trim]; it is here to state what a trimmed input is. *)
Definition isWhiteSpace (c : ascii) : bool :=
  match N_of_ascii c with
  | 9 | 10 | 11 | 12 | 13 | 32 | 160 => true
  | _ => false
  end%N.

Fixpoint trimStart (s : string) : string :=
  match s with
  | EmptyString => EmptyString
  | String c rest => if isWhiteSpace c then trimStart rest else s
  end.

Fixpoint trimEnd (s : string) : string :=
  match s with
  | EmptyString => EmptyString
  | String c rest =>
      match trimEnd rest with
      | EmptyString => if isWhiteSpace c then EmptyString else String c EmptyString
      | kept => String c kept
      end
  end.

Definition trim (s : string) : string := trimEnd (trimStart s).

(** [String.prototype.toLowerCase] on the code units below 256: the
    letters A-Z and the Latin-1 capitals (192-222 but the
    multiplication sign 215) move up by 32. *)
Definition lowerChar (c : ascii) : ascii :=
  let n := N_of_ascii c in
  if (N.leb 65 n && N.leb n 90)
     || (N.leb 192 n && N.leb n 222 && negb (N.eqb n 215))
  then ascii_of_N (n + 32)
  else c.

Fixpoint toLowerCase (s : string) : string :=
  match s with
  | EmptyString => EmptyString
  | String c rest => String (lowerChar c) (toLowerCase rest)
  end.

(** *** Values of type [any]

    The first [onKey] of the page takes [event: any].  A value of that
    type is modelled as far as [event.target.value + ' | '] looks into
    it: [undefined], [null], booleans, strings, and ordinary objects
    given by their own data properties (prototype [Object.prototype],
    no accessor, no function-valued property). *)
#[warnings="-register-all"]
Inductive value : Type :=
| Undefined
| Null
| Bool (b : bool)
| Str (s : string)
| Obj (props : list (string * value)).

Inductive error : Type :=
| TypeError.

(** How the evaluation of an expression ends. *)
Inductive completion (A : Type) : Type :=
| Normal (a : A)
| Throw (e : error).
Arguments Normal {A} a.
Arguments Throw {A} e.

Definition bind {A B : Type} (c : completion A) (k : A -> completion B)
  : completion B :=
  match c with
  | Normal a => k a
  | Throw e => Throw e
  end.

Fixpoint lookup (props : list (string * value)) (name : string) : option value :=
  match props with
  | [] => None
  | (n, v) :: rest => if String.eqb n name then Some v else lookup rest name
  end.

(** [v.name], for a name that no built-in prototype defines (the page
    reads [target] and [value]): reading a property of [undefined] or
    [null] throws a [TypeError]; a property that is not there reads
    as [undefined]. *)
Definition get (v : value) (name : string) : completion value :=
  match v with
  | Undefined | Null => Throw TypeError
  | Bool _ | Str _ => Normal Undefined
  | Obj props =>
      match lookup props name with
      | Some x => Normal x
      | None => Normal Undefined
      end
  end.

(** [v + s] for a string [s]: [v] is converted to a string and [s] is
    appended to it.  An ordinary object converts through the
    inherited [toString] to "[object Object]"; when an own property
    [toString] hides it (here never a function), no conversion is
    left and a [TypeError] is thrown. *)
Definition addString (v : value) (s : string) : completion string :=
  match v with
  | Undefined => Normal ("undefined" ++ s)
  | Null => Normal ("null" ++ s)
  | Bool true => Normal ("true" ++ s)
  | Bool false => Normal ("false" ++ s)
  | Str x => Normal (x ++ s)
  | Obj props =>
      match lookup props "toString" with
      | Some _ => Throw TypeError
      | None => Normal ("[object Object]" ++ s)
      end
  end.

End Js.

(** ** The DOM side of a template

    Each template of the page has at most one [<input>] element (the
    [#box] / [#newHero] reference variable).  The component never sees
    more of the DOM than that element's [value] and, in v1, the
    keyboard event whose [target] is that element.  The key filter of
    a binding sees the key released and the modifier keys held. *)

Module Dom.

Record HTMLInputElement : Type := { value : string }.

(** What the keyboard contributes to a key event: the name of the key
    released ([event.key]) and the modifier keys held at that moment. *)
Record Key : Type := {
  name : string;
  alt : bool;
  ctrl : bool;
  meta : bool;
  shift : bool
}.

(** The key [k] released with no modifier key held. *)
Definition plain (k : string) : Key :=
  {| name := k; alt := false; ctrl := false; meta := false; shift := false |}.

(** Some modifier key is held. *)
Definition modified (k : Key) : bool :=
  alt k || ctrl k || meta k || shift k.

Record KeyboardEvent : Type := {
  key : string;
  altKey : bool;
  ctrlKey : bool;
  metaKey : bool;
  shiftKey : bool;
  target : HTMLInputElement
}.

(** The event that the release of [k] raises on the element [box]. *)
Definition keyboardEvent (k : Key) (box : HTMLInputElement) : KeyboardEvent :=
  {| key := name k;
     altKey := alt k; ctrlKey := ctrl k; metaKey := meta k; shiftKey := shift k;
     target := box |}.

(** The event object as a value of type [any]: the properties above,
    the target with its [value]. *)
Definition toValue (e : KeyboardEvent) : Js.value :=
  Js.Obj
    [("key", Js.Str (key e));
     ("altKey", Js.Bool (altKey e));
     ("ctrlKey", Js.Bool (ctrlKey e));
     ("metaKey", Js.Bool (metaKey e));
     ("shiftKey", Js.Bool (shiftKey e));
     ("target", Js.Obj [("value", Js.Str (value (target e)))])].

(** DOM events a template of this page binds to.  [KeyUp k] is the
    release of the key [k]. *)
Inductive Event : Type :=
| Click
| KeyUp (k : Key)
| Blur.

(** The [keyup.enter] pseudo-event: the statement bound to it runs
    when the name of the released key, in lower case, is "enter" and
    no modifier key is held (with Shift held the event is
    [keyup.shift.enter], which these templates do not bind). *)
Definition isEnter (k : Key) : bool :=
  String.eqb (Js.toLowerCase (name k)) "enter" && negb (modified k).

(** What the user does: edit the input box (which runs no handler by
    itself) or cause a DOM event. *)
Inductive Action : Type :=
| SetBox (content : string)
| Fire (ev : Event).

(** A rendered view: the input box and the component instance. *)
Record View (C : Type) : Type := {
  box : HTMLInputElement;
  component : C
}.
Arguments box {C} _.
Arguments component {C} _.

Section Run.
Context {C : Type}.
(** The template: which statement runs on which event. *)
Variable template : Event -> View C -> View C.

Definition step (a : Action) (v : View C) : View C :=
  match a with
  | SetBox content => {| box := {| value := content |}; component := component v |}
  | Fire ev => template ev v
  end.

(** Handlers run one after the other, in the order of the events. *)
Fixpoint run (trace : list Action) (v : View C) : View C :=
  match trace with
  | [] => v
  | a :: rest => run rest (step a v)
  end.
End Run.

End Dom.

(** ** ClickMeComponent *)

Module ClickMe.

Record ClickMeComponent : Type := { clickMessage : string }.

(** [clickMessage = '';] *)
Definition new : ClickMeComponent := {| clickMessage := "" |}.

(** [onClickMe() { this.clickMessage = 'You are my hero!'; }] *)
Definition onClickMe (this : ClickMeComponent) : ClickMeComponent :=
  {| clickMessage := "You are my hero!" |}.

(** [<button type="button" (click)="onClickMe()">] *)
Definition template (ev : Dom.Event) (v : Dom.View ClickMeComponent)
  : Dom.View ClickMeComponent :=
  match ev with
  | Dom.Click => {| Dom.box := Dom.box v; Dom.component := onClickMe (Dom.component v) |}
  | _ => v
  end.

End ClickMe.

(** ** KeyUpComponent_v1: the whole [$event] is passed *)

Module KeyUp_v1.

Record KeyUpComponent_v1 : Type := { values : string }.

Definition new : KeyUpComponent_v1 := {| values := "" |}.

(** [onKey(event: any) { this.values += event.target.value + ' | '; }]
    (without type info): both property reads and the conversion to a
    string may throw; then [this.values] is not assigned. *)
Definition onKeyAny (event : Js.value) (this : KeyUpComponent_v1)
  : Js.completion KeyUpComponent_v1 :=
  Js.bind (Js.get event "target") (fun target =>
  Js.bind (Js.get target "value") (fun value =>
  Js.bind (Js.addString value " | ") (fun appended =>
  Js.Normal {| values := values this ++ appended |}))).

(** [onKey(event: KeyboardEvent) {
       this.values += (event.target as HTMLInputElement).value + ' | '; }]
    (with type info): the event of an input element, whose [value] is
    a string. *)
Definition onKey (event : Dom.KeyboardEvent) (this : KeyUpComponent_v1)
  : KeyUpComponent_v1 :=
  {| values := values this ++ (Dom.value (Dom.target event) ++ " | ") |}.

(** [<input (keyup)="onKey($event)">]: the event's target is the
    input element that raised it. *)
Definition template (ev : Dom.Event) (v : Dom.View KeyUpComponent_v1)
  : Dom.View KeyUpComponent_v1 :=
  match ev with
  | Dom.KeyUp k =>
      {| Dom.box := Dom.box v;
         Dom.component :=
           onKey (Dom.keyboardEvent k (Dom.box v)) (Dom.component v) |}
  | _ => v
  end.

End KeyUp_v1.

(** ** KeyUpComponent_v2: the box value is passed *)

Module KeyUp_v2.

Record KeyUpComponent_v2 : Type := { values : string }.

Definition new : KeyUpComponent_v2 := {| values := "" |}.

(** [onKey(value: string) { this.values += value + ' | '; }] *)
Definition onKey (value : string) (this : KeyUpComponent_v2)
  : KeyUpComponent_v2 :=
  {| values := values this ++ (value ++ " | ") |}.

(** [<input #box (keyup)="onKey(box.value)">] *)
Definition template (ev : Dom.Event) (v : Dom.View KeyUpComponent_v2)
  : Dom.View KeyUpComponent_v2 :=
  match ev with
  | Dom.KeyUp _ =>
      {| Dom.box := Dom.box v;
         Dom.component := onKey (Dom.value (Dom.box v)) (Dom.component v) |}
  | _ => v
  end.

End KeyUp_v2.

(** ** KeyUpComponent_v3: only Enter commits *)

Module KeyUp_v3.

Record KeyUpComponent_v3 : Type := { value : string }.

Definition new : KeyUpComponent_v3 := {| value := "" |}.

(** [onEnter(value: string) { this.value = value; }] *)
Definition onEnter (value' : string) (this : KeyUpComponent_v3)
  : KeyUpComponent_v3 :=
  {| value := value' |}.

(** [<input #box (keyup.enter)="onEnter(box.value)">] *)
Definition template (ev : Dom.Event) (v : Dom.View KeyUpComponent_v3)
  : Dom.View KeyUpComponent_v3 :=
  match ev with
  | Dom.KeyUp k =>
      if Dom.isEnter k
      then {| Dom.box := Dom.box v;
              Dom.component := onEnter (Dom.value (Dom.box v)) (Dom.component v) |}
      else v
  | _ => v
  end.

End KeyUp_v3.

(** ** KeyUpComponent_v4: Enter and blur commit *)

Module KeyUp_v4.

Record KeyUpComponent_v4 : Type := { value : string }.

Definition new : KeyUpComponent_v4 := {| value := "" |}.

(** [update(value: string) { this.value = value; }] *)
Definition update (value' : string) (this : KeyUpComponent_v4)
  : KeyUpComponent_v4 :=
  {| value := value' |}.

(** [<input #box (keyup.enter)="update(box.value)" (blur)="update(box.value)">] *)
Definition template (ev : Dom.Event) (v : Dom.View KeyUpComponent_v4)
  : Dom.View KeyUpComponent_v4 :=
  let commit :=
    {| Dom.box := Dom.box v;
       Dom.component := update (Dom.value (Dom.box v)) (Dom.component v) |} in
  match ev with
  | Dom.KeyUp k => if Dom.isEnter k then commit else v
  | Dom.Blur => commit
  | Dom.Click => v
  end.

End KeyUp_v4.

(** ** LittleTourComponent *)

Module LittleTour.

Record LittleTourComponent : Type := { heroes : list string }.

(** [heroes = ['Windstorm', 'Bombasto', 'Magneta', 'Tornado'];] *)
Definition new : LittleTourComponent :=
  {| heroes := ["Windstorm"; "Bombasto"; "Magneta"; "Tornado"] |}.

(** [addHero(newHero: string) { if (newHero) { this.heroes.push(newHero); } }] *)
Definition addHero (newHero : string) (this : LittleTourComponent)
  : LittleTourComponent :=
  if Js.truthy newHero
  then {| heroes := Js.push (heroes this) newHero |}
  else this.

(** [<input #newHero (keyup.enter)="addHero(newHero.value)"
            (blur)="addHero(newHero.value); newHero.value='' ">
    <button type="button" (click)="addHero(newHero.value)">] *)
Definition template (ev : Dom.Event) (v : Dom.View LittleTourComponent)
  : Dom.View LittleTourComponent :=
  let added := addHero (Dom.value (Dom.box v)) (Dom.component v) in
  match ev with
  | Dom.KeyUp k =>
      if Dom.isEnter k
      then {| Dom.box := Dom.box v; Dom.component := added |}
      else v
  | Dom.Blur => {| Dom.box := {| Dom.value := "" |}; Dom.component := added |}
  | Dom.Click => {| Dom.box := Dom.box v; Dom.component := added |}
  end.

End LittleTour.

(** ** Notions used by the statements *)

(** A state transformer is idempotent when a second identical call
    changes nothing any more. *)
Definition idempotent {St : Type} (f : St -> St) : Prop :=
  forall st, f (f st) = f st.

(** [n] successive calls of the same handler. *)
Definition repeated {St : Type} (n : nat) (f : St -> St) (st : St) : St :=
  Nat.iter n f st.

(** The view a template starts from: an empty input box and a fresh
    component instance. *)
Definition initialView {C : Type} (c : C) : Dom.View C :=
  {| Dom.box := {| Dom.value := "" |}; Dom.component := c |}.

(** The user types: the box gets a new content and the key is released. *)
Definition keystroke (k : Dom.Key) (content : string) : list Dom.Action :=
  [Dom.SetBox content; Dom.Fire (Dom.KeyUp k)].

(** An accumulator [b] extends [a] when it is [a] with something
    appended: nothing of [a] is removed, replaced or moved. *)
Definition extends_v1 (a b : KeyUp_v1.KeyUpComponent_v1) : Prop :=
  exists suffix, KeyUp_v1.values b = KeyUp_v1.values a ++ suffix.

Definition extends_v2 (a b : KeyUp_v2.KeyUpComponent_v2) : Prop :=
  exists suffix, KeyUp_v2.values b = KeyUp_v2.values a ++ suffix.

Definition extends_heroes (a b : LittleTour.LittleTourComponent) : Prop :=
  exists added, LittleTour.heroes b = (LittleTour.heroes a ++ added)%list.

(** Actions told apart by the binding they trigger. *)
Definition firesEnter (a : Dom.Action) : bool :=
  match a with
  | Dom.Fire (Dom.KeyUp k) => Dom.isEnter k
  | _ => false
  end.

Definition firesBlur (a : Dom.Action) : bool :=
  match a with
  | Dom.Fire Dom.Blur => true
  | _ => false
  end.

Definition firesClick (a : Dom.Action) : bool :=
  match a with
  | Dom.Fire Dom.Click => true
  | _ => false
  end.

(** The user types one content after the other, each ended by the
    release of the key paired with it. *)
Definition typed (ks : list (Dom.Key * string)) : list Dom.Action :=
  flat_map (fun p => keystroke (fst p) (snd p)) ks.

(** The user types each name and releases the key [k] after it. *)
Definition enterEach (k : Dom.Key) (names : list string) : list Dom.Action :=
  flat_map (keystroke k) names.

(** Each content followed by the separator, in order. *)
Definition separated (contents : list string) : string :=
  fold_right (fun v acc => (v ++ " | ") ++ acc) "" contents.

(** No hero of the list is the empty string. *)
Definition noEmptyName (c : LittleTour.LittleTourComponent) : Prop :=
  Forall (fun h => h <> "") (LittleTour.heroes c).

(** ** Strings and traces: auxiliary facts *)

Section StringFacts.

Lemma append_assoc (a b c : string) : (a ++ b) ++ c = a ++ (b ++ c).
Proof.
  induction a as [|x a IH]; simpl; [reflexivity|].
  now rewrite IH.
Qed.

Lemma append_nil_r (a : string) : a ++ "" = a.
Proof.
  induction a as [|x a IH]; simpl; [reflexivity|].
  now rewrite IH.
Qed.

Lemma length_append (a b : string) :
  String.length (a ++ b) = String.length a + String.length b.
Proof.
  induction a as [|x a IH]; simpl; [reflexivity|].
  now rewrite IH.
Qed.

Lemma prefix_append (a b : string) : String.prefix a (a ++ b) = true.
Proof.
  induction a as [|x a IH]; simpl.
  - now destruct b.
  - destruct (ascii_dec x x) as [_|ne]; [exact IH | now elim ne].
Qed.

(** Appending something that has a character in it yields another string. *)
Lemma append_grows (a b : string) : b <> "" -> a ++ b <> a.
Proof.
  intros Hb Heq.
  apply (f_equal String.length) in Heq.
  rewrite length_append in Heq.
  destruct b as [|y b]; [now apply Hb|].
  simpl in Heq. lia.
Qed.

Lemma separator_not_empty (v : string) : v ++ " | " <> "".
Proof.
  intros Heq. apply (f_equal String.length) in Heq.
  rewrite length_append in Heq. simpl in Heq. lia.
Qed.

Lemma truthy_iff (s : string) : Js.truthy s = true <-> s <> "".
Proof.
  destruct s; simpl; split; congruence.
Qed.

Lemma falsy_iff (s : string) : Js.truthy s = false <-> s = "".
Proof.
  destruct s; simpl; split; congruence.
Qed.

Lemma isEnter_iff (k : Dom.Key) :
  Dom.isEnter k = true
  <-> Js.toLowerCase (Dom.name k) = "enter" /\ Dom.modified k = false.
Proof.
  unfold Dom.isEnter. rewrite andb_true_iff, String.eqb_eq, negb_true_iff.
  reflexivity.
Qed.

Lemma not_enter_name (k : Dom.Key) :
  Js.toLowerCase (Dom.name k) <> "enter" -> Dom.isEnter k = false.
Proof.
  intros Hk. unfold Dom.isEnter.
  now rewrite (proj2 (String.eqb_neq _ _) Hk).
Qed.

Lemma modified_not_enter (k : Dom.Key) :
  Dom.modified k = true -> Dom.isEnter k = false.
Proof.
  intros Hm. unfold Dom.isEnter. rewrite Hm. apply andb_false_r.
Qed.

End StringFacts.

Section TraceFacts.
Context {C : Type}.
Variable template : Dom.Event -> Dom.View C -> Dom.View C.

Lemma run_app (t1 t2 : list Dom.Action) (v : Dom.View C) :
  Dom.run template (t1 ++ t2)%list v = Dom.run template t2 (Dom.run template t1 v).
Proof.
  revert v. induction t1 as [|a t1 IH]; intros v; simpl; [reflexivity|].
  apply IH.
Qed.

(** A property of the component that every handler call preserves is
    preserved along every trace (editing the box leaves it alone). *)
Lemma run_preserves (R : C -> C -> Prop) :
  (forall c, R c c) ->
  (forall a b c, R a b -> R b c -> R a c) ->
  (forall ev v, R (Dom.component v) (Dom.component (template ev v))) ->
  forall trace v, R (Dom.component v) (Dom.component (Dom.run template trace v)).
Proof.
  intros Hrefl Htrans Hstep trace.
  induction trace as [|a trace IH]; intros v; simpl; [apply Hrefl|].
  eapply Htrans; [|apply IH].
  destruct a as [content|ev]; simpl; [apply Hrefl | apply Hstep].
Qed.
End TraceFacts.

(** ** LittleTourComponent.addHero *)

Lemma addHero_empty (c : LittleTour.LittleTourComponent) :
  LittleTour.addHero "" c = c.
Proof. reflexivity. Qed.

Lemma addHero_nonempty (s : string) (c : LittleTour.LittleTourComponent) :
  s <> "" ->
  LittleTour.addHero s c = {| LittleTour.heroes := (LittleTour.heroes c ++ [s])%list |}.
Proof.
  intros Hs. unfold LittleTour.addHero.
  destruct s; [now elim Hs | reflexivity].
Qed.

Lemma addHero_heroes (s : string) (c : LittleTour.LittleTourComponent) :
  LittleTour.heroes (LittleTour.addHero s c)
  = (LittleTour.heroes c ++ (if Js.truthy s then [s] else []))%list.
Proof.
  unfold LittleTour.addHero.
  destruct (Js.truthy s); simpl; [reflexivity | now rewrite app_nil_r].
Qed.

Lemma addHero_noop_iff (s : string) (c : LittleTour.LittleTourComponent) :
  LittleTour.heroes (LittleTour.addHero s c) = LittleTour.heroes c <-> s = "".
Proof.
  rewrite addHero_heroes. split.
  - intros Heq. destruct s as [|x s]; [reflexivity|]. simpl in Heq.
    apply (f_equal (@List.length string)) in Heq.
    rewrite length_app in Heq. simpl in Heq. lia.
  - intros ->. simpl. apply app_nil_r.
Qed.

(** C1: [addHero("")] leaves the heroes list as it is, whatever the list;
    [addHero("Newt")] on the initial list appends "Newt" after the four
    initial heroes, which keep their order. *)
Theorem addHero_empty_and_Newt :
  (forall c, LittleTour.addHero "" c = c) /\
  LittleTour.heroes (LittleTour.addHero "" LittleTour.new)
    = ["Windstorm"; "Bombasto"; "Magneta"; "Tornado"] /\
  LittleTour.heroes (LittleTour.addHero "Newt" LittleTour.new)
    = ["Windstorm"; "Bombasto"; "Magneta"; "Tornado"; "Newt"] /\
  LittleTour.heroes (LittleTour.addHero "Newt" LittleTour.new)
    = (LittleTour.heroes LittleTour.new ++ ["Newt"])%list.
Proof.
  split; [exact addHero_empty|].
  repeat split; reflexivity.
Qed.

(** C2, as the claim states it, fails: three spaces trim to the empty
    string, yet [addHero] appends them, because the guard tests the
    string itself and nothing trims it. *)
Lemma addHero_blank_is_appended :
  Js.trim "   " = "" /\
  LittleTour.heroes (LittleTour.addHero "   " LittleTour.new)
    = ["Windstorm"; "Bombasto"; "Magneta"; "Tornado"; "   "] /\
  LittleTour.heroes (LittleTour.addHero "   " LittleTour.new)
    <> LittleTour.heroes LittleTour.new.
Proof.
  repeat split; try reflexivity.
  discriminate.
Qed.

(** C2 (amended): [addHero(s)] leaves the heroes list unchanged exactly
    when [s] is the empty string; every other string, blank ones
    included, is appended untrimmed. *)
Theorem addHero_unchanged_iff_empty :
  forall (s : string) (c : LittleTour.LittleTourComponent),
    (LittleTour.addHero s c = c <-> s = "") /\
    (LittleTour.heroes (LittleTour.addHero s c) = LittleTour.heroes c <-> s = "") /\
    (s <> "" ->
     LittleTour.heroes (LittleTour.addHero s c) = (LittleTour.heroes c ++ [s])%list).
Proof.
  intros s c. split; [|split].
  - split.
    + intros Heq. apply (addHero_noop_iff s c). now rewrite Heq.
    + intros ->. apply addHero_empty.
  - apply addHero_noop_iff.
  - intros Hs. now rewrite addHero_nonempty.
Qed.

Lemma addHero_unchanged_iff_empty_witness :
  LittleTour.addHero "" LittleTour.new = LittleTour.new /\
  LittleTour.heroes (LittleTour.addHero " " LittleTour.new)
    = ["Windstorm"; "Bombasto"; "Magneta"; "Tornado"; " "].
Proof.
  split.
  - apply (proj2 (proj1 (addHero_unchanged_iff_empty "" LittleTour.new))).
    reflexivity.
  - apply (proj2 (proj2 (addHero_unchanged_iff_empty " " LittleTour.new))).
    discriminate.
Defined.

(** ** ClickMeComponent.onClickMe *)

(** C5: [onClickMe] takes nothing but the instance and leaves
    [clickMessage] equal to "You are my hero!" whatever it was before;
    so does a click on the button. *)
Theorem onClickMe_sets_fixed_message :
  forall c : ClickMe.ClickMeComponent,
    ClickMe.clickMessage (ClickMe.onClickMe c) = "You are my hero!" /\
    (forall box,
        ClickMe.clickMessage
          (Dom.component
             (ClickMe.template Dom.Click {| Dom.box := box; Dom.component := c |}))
        = "You are my hero!").
Proof.
  intros c. split; [|intros box]; reflexivity.
Qed.

(** ** The keyup accumulators *)

(** What a sequence of box contents adds to the accumulator: each
    content followed by the separator. *)
Lemma onKey_v2_fold (contents : list string) (c : KeyUp_v2.KeyUpComponent_v2) :
  KeyUp_v2.values (fold_left (fun this v => KeyUp_v2.onKey v this) contents c)
  = KeyUp_v2.values c ++ String.concat "" (map (fun v => v ++ " | ") contents).
Proof.
  revert c. induction contents as [|v contents IH]; intros c; simpl.
  - now rewrite append_nil_r.
  - rewrite IH. simpl. rewrite append_assoc.
    destruct contents as [|w contents]; simpl; [now rewrite append_nil_r | reflexivity].
Qed.

(** C4: from the empty accumulator, three key releases with box
    contents "a", "ab", "abc" leave [values] equal to
    "a | ab | abc | ", in v1 (through [$event]) and in v2 (through
    [box.value]), whichever keys were released and whichever modifier
    keys were held. *)
Theorem onKey_accumulates_a_ab_abc :
  (forall k1 k2 k3 : Dom.Key,
      KeyUp_v1.values
        (KeyUp_v1.onKey (Dom.keyboardEvent k3 {| Dom.value := "abc" |})
           (KeyUp_v1.onKey (Dom.keyboardEvent k2 {| Dom.value := "ab" |})
              (KeyUp_v1.onKey (Dom.keyboardEvent k1 {| Dom.value := "a" |})
                 KeyUp_v1.new)))
      = "a | ab | abc | ") /\
  KeyUp_v2.values
    (KeyUp_v2.onKey "abc" (KeyUp_v2.onKey "ab" (KeyUp_v2.onKey "a" KeyUp_v2.new)))
  = "a | ab | abc | " /\
  (forall k1 k2 k3 : Dom.Key,
      KeyUp_v1.values
        (Dom.component
           (Dom.run KeyUp_v1.template
              (keystroke k1 "a" ++ keystroke k2 "ab" ++ keystroke k3 "abc")%list
              (initialView KeyUp_v1.new)))
      = "a | ab | abc | ") /\
  (forall k1 k2 k3 : Dom.Key,
      KeyUp_v2.values
        (Dom.component
           (Dom.run KeyUp_v2.template
              (keystroke k1 "a" ++ keystroke k2 "ab" ++ keystroke k3 "abc")%list
              (initialView KeyUp_v2.new)))
      = "a | ab | abc | ").
Proof.
  repeat split; intros; reflexivity.
Qed.

(** ** Idempotence *)

(** C3, as the claim states it, fails: a second identical key release
    appends the box content once more, and a second identical
    [addHero] appends the name once more. *)
Lemma repeated_trigger_appends_again :
  KeyUp_v2.onKey "a" KeyUp_v2.new = {| KeyUp_v2.values := "a | " |} /\
  KeyUp_v2.onKey "a" (KeyUp_v2.onKey "a" KeyUp_v2.new)
    = {| KeyUp_v2.values := "a | a | " |} /\
  ~ idempotent (KeyUp_v2.onKey "a") /\
  ~ idempotent (LittleTour.addHero "Newt").
Proof.
  split; [reflexivity|]. split; [reflexivity|]. split.
  - intros H. specialize (H KeyUp_v2.new). discriminate H.
  - intros H. specialize (H LittleTour.new). discriminate H.
Qed.

Lemma onKey_v1_changes (e : Dom.KeyboardEvent) (c : KeyUp_v1.KeyUpComponent_v1) :
  KeyUp_v1.onKey e c <> c.
Proof.
  intros Heq. apply (f_equal KeyUp_v1.values) in Heq. simpl in Heq.
  revert Heq. apply append_grows, separator_not_empty.
Qed.

Lemma onKey_v2_changes (v : string) (c : KeyUp_v2.KeyUpComponent_v2) :
  KeyUp_v2.onKey v c <> c.
Proof.
  intros Heq. apply (f_equal KeyUp_v2.values) in Heq. simpl in Heq.
  revert Heq. apply append_grows, separator_not_empty.
Qed.

(** C3 (amended): the handlers that overwrite their field ([onClickMe],
    [onEnter], [update]) are idempotent; [addHero(v)] is idempotent
    exactly when [v] is the empty string; [onKey] is idempotent for no
    trigger value, a second identical call always appends once more. *)
Theorem idempotence_of_handlers :
  idempotent ClickMe.onClickMe /\
  (forall v, idempotent (KeyUp_v3.onEnter v)) /\
  (forall v, idempotent (KeyUp_v4.update v)) /\
  (forall v, idempotent (LittleTour.addHero v) <-> v = "") /\
  (forall e c, KeyUp_v1.onKey e (KeyUp_v1.onKey e c) <> KeyUp_v1.onKey e c) /\
  (forall v c, KeyUp_v2.onKey v (KeyUp_v2.onKey v c) <> KeyUp_v2.onKey v c).
Proof.
  split; [intros c; reflexivity|].
  split; [intros v c; reflexivity|].
  split; [intros v c; reflexivity|].
  split; [|split].
  - intros v. split.
    + intros Hidem. specialize (Hidem LittleTour.new).
      apply (f_equal LittleTour.heroes) in Hidem.
      now apply addHero_noop_iff in Hidem.
    + intros -> c. reflexivity.
  - intros e c. apply onKey_v1_changes.
  - intros v c. apply onKey_v2_changes.
Qed.

Lemma idempotence_of_handlers_witness :
  idempotent (LittleTour.addHero "").
Proof.
  apply (proj2 (proj1 (proj2 (proj2 (proj2 idempotence_of_handlers))) "")).
  reflexivity.
Defined.

(** ** KeyUpComponent_v3: the Enter filter *)

Lemma template_v3_filtered (k : Dom.Key) (v : Dom.View KeyUp_v3.KeyUpComponent_v3) :
  Dom.isEnter k = false -> KeyUp_v3.template (Dom.KeyUp k) v = v.
Proof.
  intros Hk. unfold KeyUp_v3.template. now rewrite Hk.
Qed.

Lemma template_v3_enter (k : Dom.Key) (v : Dom.View KeyUp_v3.KeyUpComponent_v3) :
  Dom.isEnter k = true ->
  KeyUp_v3.template (Dom.KeyUp k) v
  = {| Dom.box := Dom.box v;
       Dom.component := KeyUp_v3.onEnter (Dom.value (Dom.box v)) (Dom.component v) |}.
Proof.
  intros Hk. unfold KeyUp_v3.template. now rewrite Hk.
Qed.

(** C6: in v3 the release of a key other than Enter, with or without
    modifier keys, leaves the view, and so the committed [value], as
    it was (typing changes the box only); the release of Enter with
    box content "X" (or any content [x]) sets [value] to it, whether
    the key is reported as "Enter" or in another case; no event
    changes the component but the release of Enter with no modifier
    key held (with one held, the [keyup.enter] binding does not run
    and the view stays as it was). *)
Theorem keyup_enter_filter_v3 :
  (forall k v,
      Js.toLowerCase (Dom.name k) <> "enter" ->
      KeyUp_v3.template (Dom.KeyUp k) v = v) /\
  (forall k content v,
      Js.toLowerCase (Dom.name k) <> "enter" ->
      Dom.component (Dom.run KeyUp_v3.template (keystroke k content) v)
      = Dom.component v) /\
  (forall c,
      KeyUp_v3.value
        (Dom.component
           (KeyUp_v3.template (Dom.KeyUp (Dom.plain "Enter"))
              {| Dom.box := {| Dom.value := "X" |}; Dom.component := c |}))
      = "X") /\
  (forall x v,
      Dom.component (Dom.run KeyUp_v3.template (keystroke (Dom.plain "Enter") x) v)
      = KeyUp_v3.onEnter x (Dom.component v)) /\
  (forall k x v,
      Js.toLowerCase (Dom.name k) = "enter" ->
      Dom.modified k = false ->
      Dom.component (Dom.run KeyUp_v3.template (keystroke k x) v)
      = KeyUp_v3.onEnter x (Dom.component v)) /\
  (forall k v, Dom.modified k = true -> KeyUp_v3.template (Dom.KeyUp k) v = v) /\
  (forall ev v,
      KeyUp_v3.template ev v <> v ->
      exists k,
        ev = Dom.KeyUp k
        /\ Js.toLowerCase (Dom.name k) = "enter" /\ Dom.modified k = false).
Proof.
  split; [|split; [|split; [|split; [|split; [|split]]]]].
  - intros k v Hk. now apply template_v3_filtered, not_enter_name.
  - intros k content v Hk. unfold keystroke. cbn [Dom.run Dom.step].
    rewrite template_v3_filtered by now apply not_enter_name.
    reflexivity.
  - intros c. reflexivity.
  - intros x v. reflexivity.
  - intros k x v Hname Hmod. unfold keystroke. cbn [Dom.run Dom.step].
    rewrite template_v3_enter by (apply isEnter_iff; now split).
    reflexivity.
  - intros k v Hmod. now apply template_v3_filtered, modified_not_enter.
  - intros ev v Hchg. destruct ev as [|k|]; try (now elim Hchg).
    exists k. split; [reflexivity|]. apply isEnter_iff.
    destruct (Dom.isEnter k) eqn:Hk; [reflexivity|].
    elim Hchg. now apply template_v3_filtered.
Qed.

Lemma keyup_enter_filter_v3_witness :
  KeyUp_v3.template (Dom.KeyUp (Dom.plain "a"))
    {| Dom.box := {| Dom.value := "X" |}; Dom.component := KeyUp_v3.new |}
  = {| Dom.box := {| Dom.value := "X" |}; Dom.component := KeyUp_v3.new |}.
Proof.
  apply (proj1 keyup_enter_filter_v3 (Dom.plain "a")). discriminate.
Defined.

(** ** KeyUpComponent_v4: blur commits *)

(** C7: in v4 a blur with box content "Y" sets [value] to "Y"; this
    holds after every earlier interaction, those without any Enter
    included, and for every content [y]. *)
Theorem blur_commits_v4 :
  (forall c,
      KeyUp_v4.value
        (Dom.component
           (KeyUp_v4.template Dom.Blur
              {| Dom.box := {| Dom.value := "Y" |}; Dom.component := c |}))
      = "Y") /\
  (forall y trace v,
      Dom.component
        (Dom.run KeyUp_v4.template (trace ++ [Dom.SetBox y; Dom.Fire Dom.Blur])%list v)
      = {| KeyUp_v4.value := y |}) /\
  KeyUp_v4.value
    (Dom.component
       (Dom.run KeyUp_v4.template
          (keystroke (Dom.plain "Y") "Y" ++ [Dom.Fire Dom.Blur])%list
          (initialView KeyUp_v4.new)))
  = "Y".
Proof.
  split; [intros c; reflexivity|]. split; [|reflexivity].
  intros y trace v. rewrite run_app. reflexivity.
Qed.

(** ** Repeated commits *)

(** C8: [n] successive calls of [addHero] with the same non-empty [s]
    append exactly [n] copies of [s] to the list, whatever it held. *)
Theorem addHero_repeated_appends_each_time :
  forall (s : string) (c : LittleTour.LittleTourComponent) (n : nat),
    s <> "" ->
    LittleTour.heroes (repeated n (LittleTour.addHero s) c)
    = (LittleTour.heroes c ++ repeat s n)%list /\
    List.length (LittleTour.heroes (repeated n (LittleTour.addHero s) c))
    = List.length (LittleTour.heroes c) + n.
Proof.
  intros s c n Hs.
  assert (Hlist : LittleTour.heroes (repeated n (LittleTour.addHero s) c)
                  = (LittleTour.heroes c ++ repeat s n)%list).
  { unfold repeated. induction n as [|n IH].
    - simpl. now rewrite app_nil_r.
    - rewrite Nat.iter_succ, addHero_nonempty by exact Hs.
      cbn [LittleTour.heroes repeat].
      rewrite IH, <- app_assoc. f_equal. symmetry. apply repeat_cons. }
  split; [exact Hlist|].
  now rewrite Hlist, length_app, repeat_length.
Qed.

Lemma addHero_repeated_appends_each_time_witness :
  LittleTour.heroes (repeated 3 (LittleTour.addHero "Newt") LittleTour.new)
  = ["Windstorm"; "Bombasto"; "Magneta"; "Tornado"; "Newt"; "Newt"; "Newt"].
Proof.
  apply (proj1 (addHero_repeated_appends_each_time "Newt" LittleTour.new 3
                  ltac:(discriminate))).
Defined.

(** ** Failure modes: the silent rejection and the untyped event *)

Lemma onKeyAny_delivered (e : Dom.KeyboardEvent) (c : KeyUp_v1.KeyUpComponent_v1) :
  KeyUp_v1.onKeyAny (Dom.toValue e) c = Js.Normal (KeyUp_v1.onKey e c).
Proof. reflexivity. Qed.

Lemma onKeyAny_string_value (event t : Js.value) (s : string)
  (c : KeyUp_v1.KeyUpComponent_v1) :
  Js.get event "target" = Js.Normal t ->
  Js.get t "value" = Js.Normal (Js.Str s) ->
  KeyUp_v1.onKeyAny event c
  = Js.Normal {| KeyUp_v1.values := KeyUp_v1.values c ++ (s ++ " | ") |}.
Proof.
  intros Ht Hv. unfold KeyUp_v1.onKeyAny. rewrite Ht. cbn [Js.bind].
  rewrite Hv. reflexivity.
Qed.

Lemma onKeyAny_no_target (event : Js.value) (c : KeyUp_v1.KeyUpComponent_v1) :
  event = Js.Undefined \/ event = Js.Null
  \/ Js.get event "target" = Js.Normal Js.Undefined
  \/ Js.get event "target" = Js.Normal Js.Null ->
  KeyUp_v1.onKeyAny event c = Js.Throw Js.TypeError.
Proof.
  unfold KeyUp_v1.onKeyAny.
  intros [->|[->|[Ht|Ht]]]; try reflexivity; now rewrite Ht.
Qed.

(** C9, as the claim states it, fails: [onKey(event: any)] of v1 reads
    [event.target.value]; on an event object without a target, on one
    whose target is [null], and on [undefined] it throws a
    [TypeError]. *)
Lemma onKey_without_target_throws :
  KeyUp_v1.onKeyAny (Js.Obj []) KeyUp_v1.new = Js.Throw Js.TypeError /\
  KeyUp_v1.onKeyAny (Js.Obj [("target", Js.Null)]) KeyUp_v1.new
    = Js.Throw Js.TypeError /\
  KeyUp_v1.onKeyAny Js.Undefined KeyUp_v1.new = Js.Throw Js.TypeError.
Proof.
  repeat split; reflexivity.
Qed.

(** C9 (amended): every handler completes normally on every input its
    template binding delivers.  [onKey(event: any)] of v1 does so on
    every keyboard event an input element raises, with the result of
    the typed [onKey], and whenever [event.target.value] is a string;
    it throws a [TypeError] when [event] or [event.target] is
    [undefined] or [null].  The handlers with typed parameters
    ([onClickMe], typed [onKey] of v1, [onKey] of v2, [onEnter],
    [update], [addHero]) return the instance given here for every
    argument; [onKey] always changes the instance; [addHero] returns
    it untouched exactly on the empty string, the only falsy string:
    that is the one silent rejection. *)
Theorem handlers_complete_on_delivered_input :
  (forall e c, KeyUp_v1.onKeyAny (Dom.toValue e) c = Js.Normal (KeyUp_v1.onKey e c)) /\
  (forall event t s c,
      Js.get event "target" = Js.Normal t ->
      Js.get t "value" = Js.Normal (Js.Str s) ->
      KeyUp_v1.onKeyAny event c
      = Js.Normal {| KeyUp_v1.values := KeyUp_v1.values c ++ (s ++ " | ") |}) /\
  (forall event c,
      event = Js.Undefined \/ event = Js.Null
      \/ Js.get event "target" = Js.Normal Js.Undefined
      \/ Js.get event "target" = Js.Normal Js.Null ->
      KeyUp_v1.onKeyAny event c = Js.Throw Js.TypeError) /\
  (forall c, ClickMe.onClickMe c = {| ClickMe.clickMessage := "You are my hero!" |}) /\
  (forall e c,
      KeyUp_v1.onKey e c
      = {| KeyUp_v1.values :=
             KeyUp_v1.values c ++ Dom.value (Dom.target e) ++ " | " |} /\
      KeyUp_v1.onKey e c <> c) /\
  (forall v c,
      KeyUp_v2.onKey v c = {| KeyUp_v2.values := KeyUp_v2.values c ++ v ++ " | " |} /\
      KeyUp_v2.onKey v c <> c) /\
  (forall v c, KeyUp_v3.onEnter v c = {| KeyUp_v3.value := v |}) /\
  (forall v c, KeyUp_v4.update v c = {| KeyUp_v4.value := v |}) /\
  (forall s c,
      LittleTour.addHero s c
      = match s with
        | EmptyString => c
        | String _ _ => {| LittleTour.heroes := (LittleTour.heroes c ++ [s])%list |}
        end) /\
  (forall s c, LittleTour.addHero s c = c <-> Js.truthy s = false) /\
  (forall s, Js.truthy s = false <-> s = "").
Proof.
  split; [exact onKeyAny_delivered|].
  split; [exact onKeyAny_string_value|].
  split; [exact onKeyAny_no_target|].
  split; [intros c; reflexivity|].
  split; [intros e c; split; [reflexivity | apply onKey_v1_changes]|].
  split; [intros v c; split; [reflexivity | apply onKey_v2_changes]|].
  split; [intros v c; reflexivity|].
  split; [intros v c; reflexivity|].
  split; [intros [|x s] c; reflexivity|].
  split; [|exact falsy_iff].
  intros s c. rewrite falsy_iff. split.
  - intros Heq. apply (addHero_noop_iff s c). now rewrite Heq.
  - intros ->. apply addHero_empty.
Qed.

Lemma handlers_complete_on_delivered_input_witness :
  KeyUp_v1.onKeyAny
    (Js.Obj [("target", Js.Obj [("value", Js.Str "a")])]) KeyUp_v1.new
  = Js.Normal {| KeyUp_v1.values := "a | " |}.
Proof.
  apply (proj1 (proj2 handlers_complete_on_delivered_input)
           (Js.Obj [("target", Js.Obj [("value", Js.Str "a")])])
           (Js.Obj [("value", Js.Str "a")]) "a" KeyUp_v1.new);
    reflexivity.
Defined.

(** ** The accumulators only grow *)

Lemma run_extends_v1 (trace : list Dom.Action) (v : Dom.View KeyUp_v1.KeyUpComponent_v1) :
  extends_v1 (Dom.component v) (Dom.component (Dom.run KeyUp_v1.template trace v)).
Proof.
  revert trace v. apply run_preserves.
  - intros c. exists "". now rewrite append_nil_r.
  - intros a b c [s1 H1] [s2 H2]. exists (s1 ++ s2).
    now rewrite H2, H1, append_assoc.
  - intros [|k|] w; simpl; try (exists ""; now rewrite append_nil_r).
    now eexists.
Qed.

Lemma run_extends_v2 (trace : list Dom.Action) (v : Dom.View KeyUp_v2.KeyUpComponent_v2) :
  extends_v2 (Dom.component v) (Dom.component (Dom.run KeyUp_v2.template trace v)).
Proof.
  revert trace v. apply run_preserves.
  - intros c. exists "". now rewrite append_nil_r.
  - intros a b c [s1 H1] [s2 H2]. exists (s1 ++ s2).
    now rewrite H2, H1, append_assoc.
  - intros [|k|] w; simpl; try (exists ""; now rewrite append_nil_r).
    now eexists.
Qed.

Lemma addHero_extends (s : string) (c : LittleTour.LittleTourComponent) :
  extends_heroes c (LittleTour.addHero s c).
Proof.
  eexists. apply addHero_heroes.
Qed.

Lemma run_extends_heroes
  (trace : list Dom.Action) (v : Dom.View LittleTour.LittleTourComponent) :
  extends_heroes (Dom.component v) (Dom.component (Dom.run LittleTour.template trace v)).
Proof.
  revert trace v. apply run_preserves.
  - intros c. exists []. now rewrite app_nil_r.
  - intros a b c [l1 H1] [l2 H2]. exists (l1 ++ l2)%list.
    now rewrite H2, H1, app_assoc.
  - intros [|k|] w; unfold LittleTour.template; cbn [Dom.component].
    + apply addHero_extends.
    + destruct (Dom.isEnter k); cbn [Dom.component];
        [apply addHero_extends | exists []; now rewrite app_nil_r].
    + apply addHero_extends.
Qed.

(** C10: a call of [onKey] (v1 or v2) leaves the old [values] as a
    prefix of the new one, and a call of [addHero] leaves the old
    [heroes] as a prefix of the new list: every entry stays at its
    index and no length decreases.  The same holds along every
    sequence of user actions on the three templates. *)
Theorem accumulators_append_only :
  (forall e c,
      String.prefix (KeyUp_v1.values c) (KeyUp_v1.values (KeyUp_v1.onKey e c)) = true /\
      String.length (KeyUp_v1.values c)
      <= String.length (KeyUp_v1.values (KeyUp_v1.onKey e c))) /\
  (forall v c,
      String.prefix (KeyUp_v2.values c) (KeyUp_v2.values (KeyUp_v2.onKey v c)) = true /\
      String.length (KeyUp_v2.values c)
      <= String.length (KeyUp_v2.values (KeyUp_v2.onKey v c))) /\
  (forall s c,
      firstn (List.length (LittleTour.heroes c)) (LittleTour.heroes (LittleTour.addHero s c))
      = LittleTour.heroes c /\
      (forall i h,
          nth_error (LittleTour.heroes c) i = Some h ->
          nth_error (LittleTour.heroes (LittleTour.addHero s c)) i = Some h) /\
      List.length (LittleTour.heroes c)
      <= List.length (LittleTour.heroes (LittleTour.addHero s c))) /\
  (forall trace v,
      String.prefix
        (KeyUp_v1.values (Dom.component v))
        (KeyUp_v1.values (Dom.component (Dom.run KeyUp_v1.template trace v))) = true) /\
  (forall trace v,
      String.prefix
        (KeyUp_v2.values (Dom.component v))
        (KeyUp_v2.values (Dom.component (Dom.run KeyUp_v2.template trace v))) = true) /\
  (forall trace v,
      firstn (List.length (LittleTour.heroes (Dom.component v)))
        (LittleTour.heroes (Dom.component (Dom.run LittleTour.template trace v)))
      = LittleTour.heroes (Dom.component v)).
Proof.
  split; [|split; [|split; [|split; [|split]]]].
  - intros e c. simpl. split; [apply prefix_append|].
    rewrite length_append. lia.
  - intros v c. simpl. split; [apply prefix_append|].
    rewrite length_append. lia.
  - intros s c. rewrite addHero_heroes. split; [|split].
    + now rewrite firstn_app, firstn_all, Nat.sub_diag, app_nil_r.
    + intros i h Hi. rewrite nth_error_app1; [exact Hi|].
      apply nth_error_Some. congruence.
    + rewrite length_app. lia.
  - intros trace v. destruct (run_extends_v1 trace v) as [suffix ->].
    apply prefix_append.
  - intros trace v. destruct (run_extends_v2 trace v) as [suffix ->].
    apply prefix_append.
  - intros trace v. destruct (run_extends_heroes trace v) as [added ->].
    now rewrite firstn_app, firstn_all, Nat.sub_diag, app_nil_r.
Qed.

Lemma accumulators_append_only_witness :
  nth_error (LittleTour.heroes (LittleTour.addHero "Newt" LittleTour.new)) 1
  = Some "Bombasto".
Proof.
  apply (proj1 (proj2 (proj1 (proj2 (proj2 accumulators_append_only))
                         "Newt" LittleTour.new))).
  reflexivity.
Defined.

(** * Further properties of the templates and handlers *)

(** ** LittleTourComponent: what gets into the list *)

Lemma addHero_In (s h : string) (c : LittleTour.LittleTourComponent) :
  In h (LittleTour.heroes (LittleTour.addHero s c)) ->
  In h (LittleTour.heroes c) \/ (h <> "" /\ h = s).
Proof.
  rewrite addHero_heroes. intros Hin. apply in_app_or in Hin.
  destruct Hin as [Hold|Hnew]; [now left|right].
  destruct s as [|x s]; simpl in Hnew; [contradiction|].
  destruct Hnew as [<-|[]]. split; [discriminate | reflexivity].
Qed.

Lemma template_heroes_In (ev : Dom.Event) (h : string)
  (v : Dom.View LittleTour.LittleTourComponent) :
  In h (LittleTour.heroes (Dom.component (LittleTour.template ev v))) ->
  In h (LittleTour.heroes (Dom.component v))
  \/ (h <> "" /\ h = Dom.value (Dom.box v)).
Proof.
  destruct ev as [|k|]; unfold LittleTour.template; cbn [Dom.component].
  - apply addHero_In.
  - destruct (Dom.isEnter k); cbn [Dom.component]; [apply addHero_In | now left].
  - apply addHero_In.
Qed.

Lemma template_box (ev : Dom.Event) (v : Dom.View LittleTour.LittleTourComponent) :
  Dom.value (Dom.box (LittleTour.template ev v)) = Dom.value (Dom.box v)
  \/ Dom.value (Dom.box (LittleTour.template ev v)) = "".
Proof.
  destruct ev as [|k|]; unfold LittleTour.template; cbn [Dom.box];
    [now left | | now right].
  destruct (Dom.isEnter k); now left.
Qed.

(** X1: the heroes list never acquires an empty name: when no entry is
    the empty string before, none is after any sequence of user
    actions on the little-tour template (whatever is typed, and
    whichever of Enter, blur and the Add button fires). *)
Theorem heroes_never_get_empty_name :
  forall (trace : list Dom.Action) (v : Dom.View LittleTour.LittleTourComponent),
    noEmptyName (Dom.component v) ->
    noEmptyName (Dom.component (Dom.run LittleTour.template trace v)).
Proof.
  intros trace v.
  apply (run_preserves LittleTour.template
           (fun a b => noEmptyName a -> noEmptyName b)).
  - intros c Hc. exact Hc.
  - intros a b c Hab Hbc Ha. apply Hbc, Hab, Ha.
  - intros ev w Hw. unfold noEmptyName in *. apply Forall_forall.
    intros h Hin. apply template_heroes_In in Hin.
    destruct Hin as [Hold|[Hne _]]; [|exact Hne].
    rewrite Forall_forall in Hw. now apply Hw.
Qed.

Lemma heroes_never_get_empty_name_witness :
  noEmptyName
    (Dom.component
       (Dom.run LittleTour.template
          (keystroke (Dom.plain "Enter") "" ++ keystroke (Dom.plain "Enter") "Newt"
             ++ [Dom.Fire Dom.Blur])%list
          (initialView LittleTour.new))).
Proof.
  apply heroes_never_get_empty_name.
  unfold noEmptyName. simpl. repeat constructor; discriminate.
Defined.

(** X2: every hero on the list after a sequence of user actions was
    on the list before, or is a non-empty string that the input box
    held: its content at the start or a content typed since.  The
    template adds nothing else. *)
Theorem heroes_come_from_the_box :
  forall (trace : list Dom.Action) (v : Dom.View LittleTour.LittleTourComponent)
         (h : string),
    In h (LittleTour.heroes (Dom.component (Dom.run LittleTour.template trace v))) ->
    In h (LittleTour.heroes (Dom.component v))
    \/ (h <> "" /\ (h = Dom.value (Dom.box v) \/ In (Dom.SetBox h) trace)).
Proof.
  induction trace as [|a trace IH]; intros v h Hin; [now left|].
  cbn [Dom.run] in Hin. apply IH in Hin.
  destruct a as [content|ev]; cbn [Dom.step Dom.component Dom.box Dom.value] in Hin.
  - destruct Hin as [Hold|[Hne [->|Hlater]]].
    + now left.
    + right. split; [exact Hne|]. right. now left.
    + right. split; [exact Hne|]. right. now right.
  - destruct Hin as [Hstep|[Hne [Hbox|Hlater]]].
    + apply template_heroes_In in Hstep.
      destruct Hstep as [Hold|[Hne ->]]; [now left|].
      right. split; [exact Hne | now left].
    + destruct (template_box ev v) as [Hsame|Hcleared].
      * right. split; [exact Hne|]. left. congruence.
      * elim Hne. congruence.
    + right. split; [exact Hne|]. right. now right.
Qed.

Lemma heroes_come_from_the_box_witness :
  In "Newt" (LittleTour.heroes LittleTour.new)
  \/ ("Newt" <> ""
      /\ ("Newt" = Dom.value (Dom.box (initialView LittleTour.new))
          \/ In (Dom.SetBox "Newt") (keystroke (Dom.plain "Enter") "Newt"))).
Proof.
  apply (heroes_come_from_the_box (keystroke (Dom.plain "Enter") "Newt")
           (initialView LittleTour.new) "Newt").
  simpl. intuition.
Defined.

Lemma run_typed_key (k : Dom.Key) (n : string)
  (v : Dom.View LittleTour.LittleTourComponent) :
  Dom.run LittleTour.template (keystroke k n) v
  = {| Dom.box := {| Dom.value := n |};
       Dom.component :=
         if Dom.isEnter k
         then LittleTour.addHero n (Dom.component v)
         else Dom.component v |}.
Proof.
  unfold keystroke. cbn [Dom.run Dom.step]. unfold LittleTour.template.
  now destruct (Dom.isEnter k).
Qed.

(** X3: typing names and releasing a key after each appends exactly
    the non-empty names, in the order typed, when the key passes the
    [keyup.enter] filter (Enter with no modifier key held), and
    appends nothing when it does not (another key, or Enter with
    Shift, Ctrl, Alt or Meta held). *)
Theorem enter_each_appends_nonempty_names :
  forall (k : Dom.Key) (names : list string)
         (v : Dom.View LittleTour.LittleTourComponent),
    LittleTour.heroes
      (Dom.component (Dom.run LittleTour.template (enterEach k names) v))
    = (LittleTour.heroes (Dom.component v)
       ++ (if Dom.isEnter k then filter Js.truthy names else []))%list.
Proof.
  intros k names. induction names as [|n names IH]; intros v.
  - simpl. destruct (Dom.isEnter k); now rewrite app_nil_r.
  - unfold enterEach. cbn [flat_map]. rewrite run_app.
    fold (enterEach k names). rewrite IH, run_typed_key.
    cbn [Dom.component]. destruct (Dom.isEnter k); [|reflexivity].
    cbn [filter]. rewrite addHero_heroes, <- app_assoc.
    f_equal. now destruct (Js.truthy n).
Qed.

(** ** LittleTourComponent: blur clears the box *)

Lemma template_after_blur (ev : Dom.Event) (v : Dom.View LittleTour.LittleTourComponent) :
  LittleTour.template ev (LittleTour.template Dom.Blur v)
  = LittleTour.template Dom.Blur v.
Proof.
  destruct ev as [|k|]; unfold LittleTour.template;
    cbn [Dom.box Dom.component Dom.value]; try reflexivity.
  now destruct (Dom.isEnter k).
Qed.

(** X4: a blur empties the input box, so once the box has lost focus
    no further event (Enter, another blur, a click on Add, in any
    number and order) adds a hero or changes the view, until the user
    types again. *)
Theorem nothing_is_added_after_blur :
  forall (evs : list Dom.Event) (v : Dom.View LittleTour.LittleTourComponent),
    Dom.run LittleTour.template (map Dom.Fire evs) (LittleTour.template Dom.Blur v)
    = LittleTour.template Dom.Blur v.
Proof.
  induction evs as [|ev evs IH]; intros v; [reflexivity|].
  cbn [map Dom.run Dom.step]. rewrite template_after_blur. apply IH.
Qed.

(** X5: Enter commits without clearing the box and blur commits what
    the box still holds: a non-empty name typed, entered (Enter with
    no modifier key held) and then left by a blur is on the list
    twice.  When the key released does not pass the [keyup.enter]
    filter (Enter with a modifier key held, or another key) only the
    blur commits and the name is on the list once.  Left by a blur
    first and then followed by a click on Add, it is on the list
    once. *)
Theorem enter_then_blur_adds_twice :
  forall (k : Dom.Key) (y : string) (v : Dom.View LittleTour.LittleTourComponent),
    y <> "" ->
    LittleTour.heroes
      (Dom.component
         (Dom.run LittleTour.template
            [Dom.SetBox y; Dom.Fire (Dom.KeyUp (Dom.plain "Enter")); Dom.Fire Dom.Blur] v))
    = (LittleTour.heroes (Dom.component v) ++ [y; y])%list /\
    LittleTour.heroes
      (Dom.component
         (Dom.run LittleTour.template
            [Dom.SetBox y; Dom.Fire (Dom.KeyUp k); Dom.Fire Dom.Blur] v))
    = (LittleTour.heroes (Dom.component v)
       ++ (if Dom.isEnter k then [y; y] else [y]))%list /\
    LittleTour.heroes
      (Dom.component
         (Dom.run LittleTour.template
            [Dom.SetBox y; Dom.Fire Dom.Blur; Dom.Fire Dom.Click] v))
    = (LittleTour.heroes (Dom.component v) ++ [y])%list.
Proof.
  intros k y v Hy.
  assert (Hkey : forall k',
             LittleTour.heroes
               (Dom.component
                  (Dom.run LittleTour.template
                     [Dom.SetBox y; Dom.Fire (Dom.KeyUp k'); Dom.Fire Dom.Blur] v))
             = (LittleTour.heroes (Dom.component v)
                ++ (if Dom.isEnter k' then [y; y] else [y]))%list).
  { intros k'. cbn [Dom.run Dom.step]. unfold LittleTour.template.
    destruct (Dom.isEnter k'); cbn [Dom.box Dom.component Dom.value].
    - rewrite !addHero_nonempty by exact Hy.
      cbn [LittleTour.heroes]. now rewrite <- app_assoc.
    - now rewrite addHero_nonempty. }
  split; [exact (Hkey (Dom.plain "Enter"))|]. split; [exact (Hkey k)|].
  change (Dom.component
            (Dom.run LittleTour.template
               [Dom.SetBox y; Dom.Fire Dom.Blur; Dom.Fire Dom.Click] v))
    with (LittleTour.addHero "" (LittleTour.addHero y (Dom.component v))).
  now rewrite addHero_empty, addHero_nonempty.
Qed.

Lemma enter_then_blur_adds_twice_witness :
  LittleTour.heroes
    (Dom.component
       (Dom.run LittleTour.template
          [Dom.SetBox "Newt"; Dom.Fire (Dom.KeyUp (Dom.plain "Enter")); Dom.Fire Dom.Blur]
          (initialView LittleTour.new)))
  = ["Windstorm"; "Bombasto"; "Magneta"; "Tornado"; "Newt"; "Newt"].
Proof.
  apply (proj1 (enter_then_blur_adds_twice (Dom.plain "Enter") "Newt"
                  (initialView LittleTour.new) ltac:(discriminate))).
Defined.

(** ** The keyup accumulators along a typing session *)

Lemma run_keystroke_v1 (k : Dom.Key) (content : string) (v : Dom.View KeyUp_v1.KeyUpComponent_v1) :
  Dom.run KeyUp_v1.template (keystroke k content) v
  = {| Dom.box := {| Dom.value := content |};
       Dom.component :=
         {| KeyUp_v1.values :=
              KeyUp_v1.values (Dom.component v) ++ (content ++ " | ") |} |}.
Proof. reflexivity. Qed.

Lemma run_keystroke_v2 (k : Dom.Key) (content : string) (v : Dom.View KeyUp_v2.KeyUpComponent_v2) :
  Dom.run KeyUp_v2.template (keystroke k content) v
  = {| Dom.box := {| Dom.value := content |};
       Dom.component :=
         {| KeyUp_v2.values :=
              KeyUp_v2.values (Dom.component v) ++ (content ++ " | ") |} |}.
Proof. reflexivity. Qed.

(** X6: after any typing session, [values] is what it was, followed
    by every successive box content, each with its separator, in the
    order typed; the keys pressed play no part.  This holds for v1
    and for v2. *)
Theorem typing_accumulates_every_content :
  forall (ks : list (Dom.Key * string)),
    (forall v,
        KeyUp_v1.values (Dom.component (Dom.run KeyUp_v1.template (typed ks) v))
        = KeyUp_v1.values (Dom.component v) ++ separated (map snd ks)) /\
    (forall v,
        KeyUp_v2.values (Dom.component (Dom.run KeyUp_v2.template (typed ks) v))
        = KeyUp_v2.values (Dom.component v) ++ separated (map snd ks)).
Proof.
  induction ks as [|[k content] ks [IH1 IH2]]; split; intros v;
    try (simpl; now rewrite append_nil_r).
  - unfold typed. cbn [flat_map fst snd]. fold (typed ks).
    rewrite run_app, IH1, run_keystroke_v1.
    cbn [Dom.component KeyUp_v1.values map snd separated fold_right].
    fold (separated (map snd ks)). now rewrite !append_assoc.
  - unfold typed. cbn [flat_map fst snd]. fold (typed ks).
    rewrite run_app, IH2, run_keystroke_v2.
    cbn [Dom.component KeyUp_v2.values map snd separated fold_right].
    fold (separated (map snd ks)). now rewrite !append_assoc.
Qed.

(** X7: passing the box value (v2) instead of the whole event (v1)
    changes nothing that is observable: from equal accumulators and
    the same box, any sequence of user actions leaves both components
    with the same [values] and both views with the same box. *)
Theorem v1_and_v2_accumulate_alike :
  forall (trace : list Dom.Action)
         (w1 : Dom.View KeyUp_v1.KeyUpComponent_v1)
         (w2 : Dom.View KeyUp_v2.KeyUpComponent_v2),
    Dom.box w1 = Dom.box w2 ->
    KeyUp_v1.values (Dom.component w1) = KeyUp_v2.values (Dom.component w2) ->
    KeyUp_v1.values (Dom.component (Dom.run KeyUp_v1.template trace w1))
    = KeyUp_v2.values (Dom.component (Dom.run KeyUp_v2.template trace w2)) /\
    Dom.box (Dom.run KeyUp_v1.template trace w1)
    = Dom.box (Dom.run KeyUp_v2.template trace w2).
Proof.
  induction trace as [|a trace IH]; intros w1 w2 Hbox Hval; [now split|].
  cbn [Dom.run]. apply IH.
  - destruct a as [content|[|k|]]; cbn; congruence.
  - destruct a as [content|[|k|]]; cbn; congruence.
Qed.

Lemma v1_and_v2_accumulate_alike_witness :
  KeyUp_v1.values
    (Dom.component
       (Dom.run KeyUp_v1.template (keystroke (Dom.plain "a") "a" ++ keystroke (Dom.plain "b") "ab")%list
          (initialView KeyUp_v1.new)))
  = KeyUp_v2.values
      (Dom.component
         (Dom.run KeyUp_v2.template (keystroke (Dom.plain "a") "a" ++ keystroke (Dom.plain "b") "ab")%list
            (initialView KeyUp_v2.new))).
Proof.
  apply (proj1 (v1_and_v2_accumulate_alike
                  (keystroke (Dom.plain "a") "a" ++ keystroke (Dom.plain "b") "ab")%list
                  (initialView KeyUp_v1.new) (initialView KeyUp_v2.new)
                  eq_refl eq_refl)).
Defined.

(** ** KeyUpComponent_v3 and KeyUpComponent_v4: when the value is committed *)

(** X8: in v3 the committed [value] changes on Enter only: along any
    sequence of user actions without a release of Enter (typing,
    clicking elsewhere, leaving the box) the component stays as it
    was, so what was typed is not taken over. *)
Theorem v3_without_enter_keeps_value :
  forall (trace : list Dom.Action) (v : Dom.View KeyUp_v3.KeyUpComponent_v3),
    forallb (fun a => negb (firesEnter a)) trace = true ->
    Dom.component (Dom.run KeyUp_v3.template trace v) = Dom.component v.
Proof.
  induction trace as [|a trace IH]; intros v Hno; [reflexivity|].
  cbn [forallb] in Hno. apply andb_true_iff in Hno. destruct Hno as [Ha Hrest].
  cbn [Dom.run]. rewrite (IH _ Hrest).
  destruct a as [content|[|k|]]; try reflexivity.
  cbn [firesEnter] in Ha. apply negb_true_iff in Ha.
  cbn [Dom.step]. unfold KeyUp_v3.template. now rewrite Ha.
Qed.

Lemma v3_without_enter_keeps_value_witness :
  Dom.component
    (Dom.run KeyUp_v3.template (keystroke (Dom.plain "Y") "Y" ++ [Dom.Fire Dom.Blur])%list
       (initialView KeyUp_v3.new))
  = KeyUp_v3.new.
Proof.
  apply (v3_without_enter_keeps_value
           (keystroke (Dom.plain "Y") "Y" ++ [Dom.Fire Dom.Blur])%list
           (initialView KeyUp_v3.new)).
  reflexivity.
Defined.

(** X9: v4 differs from v3 by the blur binding alone: from the same
    box and the same committed value, any sequence of user actions
    without a blur leaves both with the same committed value. *)
Theorem v4_agrees_with_v3_without_blur :
  forall (trace : list Dom.Action)
         (w3 : Dom.View KeyUp_v3.KeyUpComponent_v3)
         (w4 : Dom.View KeyUp_v4.KeyUpComponent_v4),
    forallb (fun a => negb (firesBlur a)) trace = true ->
    Dom.box w3 = Dom.box w4 ->
    KeyUp_v3.value (Dom.component w3) = KeyUp_v4.value (Dom.component w4) ->
    KeyUp_v4.value (Dom.component (Dom.run KeyUp_v4.template trace w4))
    = KeyUp_v3.value (Dom.component (Dom.run KeyUp_v3.template trace w3)).
Proof.
  induction trace as [|a trace IH]; intros w3 w4 Hno Hbox Hval; [now symmetry|].
  cbn [forallb] in Hno. apply andb_true_iff in Hno. destruct Hno as [Ha Hrest].
  cbn [Dom.run]. apply (IH _ _ Hrest).
  - destruct a as [content|[|k|]]; cbn [Dom.step].
    + reflexivity.
    + exact Hbox.
    + unfold KeyUp_v3.template, KeyUp_v4.template.
      destruct (Dom.isEnter k); exact Hbox.
    + discriminate Ha.
  - destruct a as [content|[|k|]]; cbn [Dom.step].
    + exact Hval.
    + exact Hval.
    + unfold KeyUp_v3.template, KeyUp_v4.template.
      destruct (Dom.isEnter k); cbn; congruence.
    + discriminate Ha.
Qed.

Lemma v4_agrees_with_v3_without_blur_witness :
  KeyUp_v4.value
    (Dom.component
       (Dom.run KeyUp_v4.template (keystroke (Dom.plain "a") "a" ++ keystroke (Dom.plain "Enter") "a")%list
          (initialView KeyUp_v4.new)))
  = KeyUp_v3.value
      (Dom.component
         (Dom.run KeyUp_v3.template (keystroke (Dom.plain "a") "a" ++ keystroke (Dom.plain "Enter") "a")%list
            (initialView KeyUp_v3.new))).
Proof.
  apply (v4_agrees_with_v3_without_blur
           (keystroke (Dom.plain "a") "a" ++ keystroke (Dom.plain "Enter") "a")%list
           (initialView KeyUp_v3.new) (initialView KeyUp_v4.new)
           eq_refl eq_refl eq_refl).
Defined.

Lemma template_v4_keeps_box (ev : Dom.Event) (v : Dom.View KeyUp_v4.KeyUpComponent_v4) :
  Dom.box (KeyUp_v4.template ev v) = Dom.box v.
Proof.
  destruct ev as [|k|]; unfold KeyUp_v4.template; try reflexivity.
  now destruct (Dom.isEnter k).
Qed.

Lemma template_v4_keeps_sync (ev : Dom.Event) (v : Dom.View KeyUp_v4.KeyUpComponent_v4) :
  KeyUp_v4.value (Dom.component v) = Dom.value (Dom.box v) ->
  KeyUp_v4.value (Dom.component (KeyUp_v4.template ev v))
  = Dom.value (Dom.box (KeyUp_v4.template ev v)).
Proof.
  intros Hsync. destruct ev as [|k|]; unfold KeyUp_v4.template;
    [exact Hsync | | reflexivity].
  destruct (Dom.isEnter k); [reflexivity | exact Hsync].
Qed.

(** X10: in v4, once the box has lost focus the committed [value] is
    the content of the box, after whatever happened before, and it
    stays so through every later event until the user edits the box. *)
Theorem v4_value_is_box_content_after_blur :
  forall (before : list Dom.Action) (evs : list Dom.Event)
         (v : Dom.View KeyUp_v4.KeyUpComponent_v4),
    KeyUp_v4.value
      (Dom.component
         (Dom.run KeyUp_v4.template
            (before ++ Dom.Fire Dom.Blur :: map Dom.Fire evs)%list v))
    = Dom.value
        (Dom.box
           (Dom.run KeyUp_v4.template
              (before ++ Dom.Fire Dom.Blur :: map Dom.Fire evs)%list v)).
Proof.
  intros before evs v. rewrite run_app. cbn [Dom.run Dom.step].
  generalize (Dom.run KeyUp_v4.template before v). intros w.
  assert (Hsync : KeyUp_v4.value (Dom.component (KeyUp_v4.template Dom.Blur w))
                  = Dom.value (Dom.box (KeyUp_v4.template Dom.Blur w)))
    by reflexivity.
  revert Hsync. generalize (KeyUp_v4.template Dom.Blur w). clear w.
  induction evs as [|ev evs IH]; intros w Hsync; [exact Hsync|].
  cbn [map Dom.run Dom.step]. apply IH. now apply template_v4_keeps_sync.
Qed.

(** ** ClickMeComponent: the message after a click *)

Lemma clickMessage_stays (trace : list Dom.Action) (v : Dom.View ClickMe.ClickMeComponent) :
  ClickMe.clickMessage (Dom.component v) = "You are my hero!" ->
  ClickMe.clickMessage (Dom.component (Dom.run ClickMe.template trace v))
  = "You are my hero!".
Proof.
  revert trace v.
  apply (run_preserves ClickMe.template
           (fun a b => ClickMe.clickMessage a = "You are my hero!" ->
                       ClickMe.clickMessage b = "You are my hero!")).
  - intros c Hc. exact Hc.
  - intros a b c Hab Hbc Ha. apply Hbc, Hab, Ha.
  - intros [|k|] w Hw; [reflexivity | exact Hw | exact Hw].
Qed.

(** X11: the click message has two lives: along a sequence of user
    actions with no click the component stays as it was, and after a
    sequence with at least one click the message is
    "You are my hero!", whatever else happened before or after the
    click; nothing ever sets it back. *)
Theorem clickMessage_set_once_and_for_all :
  forall (trace : list Dom.Action) (v : Dom.View ClickMe.ClickMeComponent),
    (forallb (fun a => negb (firesClick a)) trace = true ->
     Dom.component (Dom.run ClickMe.template trace v) = Dom.component v) /\
    (In (Dom.Fire Dom.Click) trace ->
     ClickMe.clickMessage (Dom.component (Dom.run ClickMe.template trace v))
     = "You are my hero!").
Proof.
  induction trace as [|a trace IH]; intros v; split.
  - reflexivity.
  - intros [].
  - intros Hno. cbn [forallb] in Hno. apply andb_true_iff in Hno.
    destruct Hno as [Ha Hrest]. cbn [Dom.run].
    rewrite (proj1 (IH _) Hrest).
    destruct a as [content|[|k|]]; try reflexivity. discriminate Ha.
  - intros [->|Hlater]; cbn [Dom.run].
    + now apply clickMessage_stays.
    + now apply (proj2 (IH _)).
Qed.

Lemma clickMessage_set_once_and_for_all_witness :
  ClickMe.clickMessage
    (Dom.component
       (Dom.run ClickMe.template
          [Dom.Fire Dom.Blur; Dom.Fire Dom.Click; Dom.Fire (Dom.KeyUp (Dom.plain "a"))]
          (initialView ClickMe.new)))
  = "You are my hero!".
Proof.
  apply (proj2 (clickMessage_set_once_and_for_all
                  [Dom.Fire Dom.Blur; Dom.Fire Dom.Click; Dom.Fire (Dom.KeyUp (Dom.plain "a"))]
                  (initialView ClickMe.new))).
  simpl. auto.
Defined.
